(** * CaptureDevice: the device descriptor of tiscamera

    A shallow embedding of [src/CaptureDevice.cpp] and the properties of
    its member functions.

    A [CaptureDevice] object owns one [struct tis_device_info] by value
    (the member [device]).  Objects live in a store indexed by
    locations, so that references ([this], [other], [device_desc]) and
    aliasing between them are explicit; every member function is a
    computation over that store. *)

From Stdlib Require Import ZArith Ascii String.
From stdpp Require Import base option list gmap.

Local Open Scope Z_scope.

(** ** The declarations taken from [device_discovery.h]

    [CaptureDevice.cpp] uses the enumerators of [enum TIS_DEVICE_TYPE]
    and [sizeof] of the three character arrays of
    [struct tis_device_info].  The header that fixes their values is not
    among the sources, so the development is parametric in them. *)

Class device_discovery_h := {
  TIS_DEVICE_TYPE_UNKNOWN : Z;
  TIS_DEVICE_TYPE_V4L2 : Z;
  TIS_DEVICE_TYPE_ARAVIS : Z;
  TIS_DEVICE_TYPE_FIREWIRE : Z;
  (** [sizeof(device.identifier)], [sizeof(device.name)] and
      [sizeof(device.serial_number)]; a [char] has size one. *)
  sizeof_identifier : nat;
  sizeof_name : nat;
  sizeof_serial_number : nat;
}.

(** The enumerators of one enumeration listed as four values are four
    different values. *)
Definition enumerators_distinct `{hdr : device_discovery_h} : Prop :=
  NoDup [TIS_DEVICE_TYPE_UNKNOWN; TIS_DEVICE_TYPE_V4L2;
         TIS_DEVICE_TYPE_ARAVIS; TIS_DEVICE_TYPE_FIREWIRE].

(** C++ has no array of zero elements. *)
Definition arrays_nonempty `{hdr : device_discovery_h} : Prop :=
  (0 < sizeof_identifier)%nat ∧ (0 < sizeof_name)%nat ∧
  (0 < sizeof_serial_number)%nat.

(** ** Data *)

(** [struct tis_device_info]: the raw value of the enumeration and the
    three character arrays, each array with all of its elements. *)
Record tis_device_info := {
  type : Z;
  identifier : list ascii;
  name : list ascii;
  serial_number : list ascii;
}.

(** An array has as many elements as its declaration says. *)
Definition well_sized `{hdr : device_discovery_h} (r : tis_device_info) : Prop :=
  length (identifier r) = sizeof_identifier ∧
  length (name r) = sizeof_name ∧
  length (serial_number r) = sizeof_serial_number.

(** [class CaptureDevice]: its one data member. *)
Record CaptureDevice := { device : tis_device_info }.

(** Assignments to one member of a [struct tis_device_info]. *)
Definition set_type (r : tis_device_info) (t : Z) : tis_device_info :=
  {| type := t; identifier := identifier r; name := name r;
     serial_number := serial_number r |}.

Definition set_identifier (r : tis_device_info) (a : list ascii) : tis_device_info :=
  {| type := type r; identifier := a; name := name r;
     serial_number := serial_number r |}.

Definition set_name (r : tis_device_info) (a : list ascii) : tis_device_info :=
  {| type := type r; identifier := identifier r; name := a;
     serial_number := serial_number r |}.

Definition set_serial_number (r : tis_device_info) (a : list ascii) : tis_device_info :=
  {| type := type r; identifier := identifier r; name := name r;
     serial_number := a |}.

(** ** The store *)

Abbreviation loc := positive.

(** What a location holds: a [CaptureDevice] object, or a
    [struct tis_device_info] variable of the caller. *)
Inductive object :=
  | CaptureDevice_at (d : CaptureDevice)
  | tis_device_info_at (r : tis_device_info).

Abbreviation store := (gmap loc object).

(** Why a computation has no defined result. *)
Inductive fault :=
  | BadReference          (* a reference to no object of the expected class *)
  | UnterminatedString.   (* a character array read as a C string has no NUL *)

Inductive outcome (A : Type) :=
  | Ok (a : A)
  | Err (e : fault).
Arguments Ok {A} a.
Arguments Err {A} e.

(** Computations over the store. *)
Definition M (A : Type) : Type := store → outcome (A * store).

#[global] Instance M_ret : MRet M := λ A a σ, Ok (a, σ).

#[global] Instance M_bind : MBind M := λ A B f m σ,
  match m σ with
  | Ok (a, σ') => f a σ'
  | Err e => Err e
  end.

Definition raise {A} (e : fault) : M A := λ _, Err e.

(** Dereference a [CaptureDevice&]. *)
Definition get_device (l : loc) : M CaptureDevice := λ σ,
  match σ !! l with
  | Some (CaptureDevice_at d) => Ok (d, σ)
  | _ => Err BadReference
  end.

(** Dereference a [struct tis_device_info&]. *)
Definition get_info (l : loc) : M tis_device_info := λ σ,
  match σ !! l with
  | Some (tis_device_info_at r) => Ok (r, σ)
  | _ => Err BadReference
  end.

(** Write the member [device] of the object at [l]. *)
Definition put_device (l : loc) (r : tis_device_info) : M unit := λ σ,
  match σ !! l with
  | Some (CaptureDevice_at _) => Ok (tt, <[l := CaptureDevice_at {| device := r |}]> σ)
  | _ => Err BadReference
  end.

(** A statement that updates the member [device] of the object at [l]. *)
Definition update_device (l : loc) (f : tis_device_info → tis_device_info) : M unit :=
  d ← get_device l; put_device l (f (device d)).

(** A declaration [struct tis_device_info v = r;] in a caller, or an
    assignment to such a variable: [v] is the variable at location [l]. *)
Definition store_info (l : loc) (r : tis_device_info) : M unit := λ σ,
  Ok (tt, <[l := tis_device_info_at r]> σ).

(** ** Library functions *)

(** [memset(s, c, n)]: the first [n] bytes of [s] become [c]. *)
Definition memset (s : list ascii) (c : ascii) (n : nat) : list ascii :=
  repeat c n ++ drop n s.

(** The characters a [std::string] takes from a character array, which
    decays to a pointer to its first element: those before the first
    NUL.  An array without a NUL has no C string inside it, and the read
    runs past its end. *)
Fixpoint c_str (s : list ascii) : option string :=
  match s with
  | [] => None
  | c :: s' =>
      if Ascii.eqb c zero then Some EmptyString
      else String c <$> c_str s'
  end.

(** The conversion of a character array to the [std::string] a member
    function returns. *)
Definition std_string (s : list ascii) : M string :=
  match c_str s with
  | Some str => mret str
  | None => raise UnterminatedString
  end.

(** ** The member functions of [CaptureDevice] *)

(** [CaptureDevice::CaptureDevice (const struct tis_device_info& device_desc)],
    whose member initialiser is [device(device_desc)] and whose body is
    empty. *)
Definition CaptureDevice_from (this device_desc : loc) : M unit :=
  r ← get_info device_desc;
  put_device this r.

(** [CaptureDevice::CaptureDevice ()]: the four statements of its body,
    run on storage that holds whatever it held. *)
Definition CaptureDevice_default `{hdr : device_discovery_h} (this : loc) : M unit :=
  update_device this (λ device, set_type device TIS_DEVICE_TYPE_UNKNOWN);;
  update_device this (λ device,
    set_identifier device (memset (identifier device) zero sizeof_identifier));;
  update_device this (λ device,
    set_name device (memset (name device) zero sizeof_name));;
  update_device this (λ device,
    set_serial_number device (memset (serial_number device) zero sizeof_serial_number)).

(** [CaptureDevice& CaptureDevice::operator= (const CaptureDevice& other)] *)
Definition operator_assign (this other : loc) : M loc :=
  o ← get_device other;
  put_device this (device o);;
  mret this.

(** [struct tis_device_info CaptureDevice::getInfo () const] *)
Definition getInfo (this : loc) : M tis_device_info :=
  d ← get_device this;
  mret (device d).

(** [std::string CaptureDevice::getName () const] *)
Definition getName (this : loc) : M string :=
  d ← get_device this;
  std_string (name (device d)).

(** [std::string CaptureDevice::getSerial () const] *)
Definition getSerial (this : loc) : M string :=
  d ← get_device this;
  std_string (serial_number (device d)).

(** [std::string CaptureDevice::getIdentifier () const] *)
Definition getIdentifier (this : loc) : M string :=
  d ← get_device this;
  std_string (identifier (device d)).

(** [enum TIS_DEVICE_TYPE CaptureDevice::getDeviceType () const] *)
Definition getDeviceType (this : loc) : M Z :=
  d ← get_device this;
  mret (type (device d)).

(** [std::string CaptureDevice::getDeviceTypeAsString () const]: the
    [switch], its labels tried in the order they are written. *)
Definition getDeviceTypeAsString `{hdr : device_discovery_h} (this : loc) : M string :=
  d ← get_device this;
  let t := type (device d) in
  if t =? TIS_DEVICE_TYPE_V4L2 then mret "V4L2"%string
  else if t =? TIS_DEVICE_TYPE_ARAVIS then mret "Aravis"%string
  else if t =? TIS_DEVICE_TYPE_FIREWIRE then mret "Firewire"%string
  else mret ""%string.

(** ** Vocabulary of the statements *)

(** The record the default constructor is to leave in the object: the
    type [TIS_DEVICE_TYPE_UNKNOWN], and NUL in every element of every
    array. *)
Definition blank `{hdr : device_discovery_h} : tis_device_info := {|
  type := TIS_DEVICE_TYPE_UNKNOWN;
  identifier := repeat zero sizeof_identifier;
  name := repeat zero sizeof_name;
  serial_number := repeat zero sizeof_serial_number;
|}.

(** [s] is the text of the array [field]: the array begins with the
    characters of [s], none of them NUL and none of them changed, and
    a NUL follows them. *)
Definition text_of (field : list ascii) (s : string) : Prop :=
  (zero ∉ list_ascii_of_string s) ∧
  field = list_ascii_of_string s ++ zero :: drop (S (String.length s)) field.

(** ** Objects for the examples *)

(** A header: the enumerators numbered from zero in the order the
    enumeration lists them, and small arrays. *)
Definition example_header : device_discovery_h := {|
  TIS_DEVICE_TYPE_UNKNOWN := 0;
  TIS_DEVICE_TYPE_V4L2 := 1;
  TIS_DEVICE_TYPE_ARAVIS := 2;
  TIS_DEVICE_TYPE_FIREWIRE := 3;
  sizeof_identifier := 8;
  sizeof_name := 8;
  sizeof_serial_number := 4;
|}.

(** The characters of [text], then [padding] times NUL. *)
Definition c_array (text : string) (padding : nat) : list ascii :=
  list_ascii_of_string text ++ repeat zero padding.

Definition usb_camera : tis_device_info := {|
  type := 1;
  identifier := c_array "/dev/v0" 1;
  name := c_array "USB Cam" 1;
  serial_number := c_array "SN1" 1;
|}.

Definition other_camera : tis_device_info := {|
  type := 1;
  identifier := c_array "/dev/v1" 1;
  name := c_array "Webcam" 2;
  serial_number := c_array "" 4;
|}.

(** A record no discovery would produce: a type that is no enumerator,
    and empty texts. *)
Definition odd_record : tis_device_info := {|
  type := 77;
  identifier := c_array "" 8;
  name := c_array "" 8;
  serial_number := c_array "" 4;
|}.

(** A record whose name takes the whole of its array: no NUL is left
    in it. *)
Definition full_name_camera : tis_device_info := {|
  type := 2;
  identifier := c_array "eth0" 4;
  name := c_array "GigE Cam" 0;
  serial_number := c_array "007" 1;
|}.

(** A record with characters after the first NUL of each array. *)
Definition spliced_camera : tis_device_info := {|
  type := 3;
  identifier := c_array "fw" 1 ++ c_array "1394" 1;
  name := c_array "ab" 1 ++ c_array "cd" 3;
  serial_number := c_array "" 1 ++ c_array "x" 2;
|}.

(** What storage may hold before a constructor has run. *)
Definition leftover : tis_device_info := {|
  type := -5;
  identifier := c_array "????????" 0;
  name := c_array "zzzzzzzz" 0;
  serial_number := c_array "!!!!" 0;
|}.

(** Location 1: storage for a [CaptureDevice], not yet constructed.
    Locations 2, 3 and 4: the records [usb_camera], [odd_record] and
    [full_name_camera]. *)
Definition fresh_store : store :=
  <[4%positive := tis_device_info_at full_name_camera]>
    (<[3%positive := tis_device_info_at odd_record]>
       (<[2%positive := tis_device_info_at usb_camera]>
          (<[1%positive := CaptureDevice_at {| device := leftover |}]> ∅))).

(** Three constructed descriptors, at locations 1, 2 and 3. *)
Definition cameras : store :=
  <[3%positive := CaptureDevice_at {| device := spliced_camera |}]>
    (<[2%positive := CaptureDevice_at {| device := other_camera |}]>
       (<[1%positive := CaptureDevice_at {| device := usb_camera |}]> ∅)).

(** ** Running computations *)

Lemma bind_Ok {A B} (m : M A) (f : A → M B) σ a σ' :
  m σ = Ok (a, σ') → (m ≫= f) σ = f a σ'.
Proof. intros Hm. unfold mbind, M_bind. by rewrite Hm. Qed.

Lemma get_device_Ok (σ : store) l d :
  σ !! l = Some (CaptureDevice_at d) → get_device l σ = Ok (d, σ).
Proof. intros Hl. unfold get_device. by rewrite Hl. Qed.

Lemma get_info_Ok (σ : store) l r :
  σ !! l = Some (tis_device_info_at r) → get_info l σ = Ok (r, σ).
Proof. intros Hl. unfold get_info. by rewrite Hl. Qed.

Lemma put_device_Ok (σ : store) l d r :
  σ !! l = Some (CaptureDevice_at d) →
  put_device l r σ = Ok (tt, <[l := CaptureDevice_at {| device := r |}]> σ).
Proof. intros Hl. unfold put_device. by rewrite Hl. Qed.

Lemma update_device_Ok (σ : store) l d f :
  σ !! l = Some (CaptureDevice_at d) →
  update_device l f σ
  = Ok (tt, <[l := CaptureDevice_at {| device := f (device d) |}]> σ).
Proof.
  intros Hl. unfold update_device.
  rewrite (bind_Ok _ _ _ _ _ (get_device_Ok _ _ _ Hl)).
  by apply put_device_Ok with d.
Qed.

Lemma CaptureDevice_eta (d : CaptureDevice) : {| device := device d |} = d.
Proof. by destruct d. Qed.

(** A [const] member function reads the object and leaves the store as
    it is. *)
Lemma getInfo_Ok (σ : store) this d :
  σ !! this = Some (CaptureDevice_at d) → getInfo this σ = Ok (device d, σ).
Proof.
  intros Hl. unfold getInfo.
  by rewrite (bind_Ok _ _ _ _ _ (get_device_Ok _ _ _ Hl)).
Qed.

Lemma getDeviceType_Ok (σ : store) this d :
  σ !! this = Some (CaptureDevice_at d) →
  getDeviceType this σ = Ok (type (device d), σ).
Proof.
  intros Hl. unfold getDeviceType.
  by rewrite (bind_Ok _ _ _ _ _ (get_device_Ok _ _ _ Hl)).
Qed.

Lemma getName_run (σ : store) this d :
  σ !! this = Some (CaptureDevice_at d) →
  getName this σ = std_string (name (device d)) σ.
Proof.
  intros Hl. unfold getName.
  by rewrite (bind_Ok _ _ _ _ _ (get_device_Ok _ _ _ Hl)).
Qed.

Lemma getSerial_run (σ : store) this d :
  σ !! this = Some (CaptureDevice_at d) →
  getSerial this σ = std_string (serial_number (device d)) σ.
Proof.
  intros Hl. unfold getSerial.
  by rewrite (bind_Ok _ _ _ _ _ (get_device_Ok _ _ _ Hl)).
Qed.

Lemma getIdentifier_run (σ : store) this d :
  σ !! this = Some (CaptureDevice_at d) →
  getIdentifier this σ = std_string (identifier (device d)) σ.
Proof.
  intros Hl. unfold getIdentifier.
  by rewrite (bind_Ok _ _ _ _ _ (get_device_Ok _ _ _ Hl)).
Qed.

(** The [switch] of [getDeviceTypeAsString], run on an object whose type
    field is [type (device d)]. *)
Lemma getDeviceTypeAsString_Ok `{hdr : device_discovery_h} (σ : store) this d :
  σ !! this = Some (CaptureDevice_at d) →
  getDeviceTypeAsString this σ
  = Ok (if type (device d) =? TIS_DEVICE_TYPE_V4L2 then "V4L2"%string
        else if type (device d) =? TIS_DEVICE_TYPE_ARAVIS then "Aravis"%string
        else if type (device d) =? TIS_DEVICE_TYPE_FIREWIRE then "Firewire"%string
        else ""%string, σ).
Proof.
  intros Hl. unfold getDeviceTypeAsString.
  rewrite (bind_Ok _ _ _ _ _ (get_device_Ok _ _ _ Hl)).
  by repeat case_match.
Qed.

Lemma CaptureDevice_from_Ok (σ : store) this device_desc d r :
  σ !! device_desc = Some (tis_device_info_at r) →
  σ !! this = Some (CaptureDevice_at d) →
  CaptureDevice_from this device_desc σ
  = Ok (tt, <[this := CaptureDevice_at {| device := r |}]> σ).
Proof.
  intros Hr Hd. unfold CaptureDevice_from.
  rewrite (bind_Ok _ _ _ _ _ (get_info_Ok _ _ _ Hr)).
  by apply put_device_Ok with d.
Qed.

Lemma operator_assign_Ok (σ : store) this other d o :
  σ !! this = Some (CaptureDevice_at d) →
  σ !! other = Some (CaptureDevice_at o) →
  operator_assign this other σ
  = Ok (this, <[this := CaptureDevice_at {| device := device o |}]> σ).
Proof.
  intros Hd Ho. unfold operator_assign.
  rewrite (bind_Ok _ _ _ _ _ (get_device_Ok _ _ _ Ho)).
  by rewrite (bind_Ok _ _ _ _ _ (put_device_Ok _ _ _ (device o) Hd)).
Qed.

(** [memset] over the whole of an array leaves none of its bytes. *)
Lemma memset_whole (s : list ascii) (c : ascii) (n : nat) :
  length s = n → memset s c n = repeat c n.
Proof.
  intros <-. unfold memset. by rewrite drop_all, app_nil_r.
Qed.

Lemma CaptureDevice_default_Ok `{hdr : device_discovery_h} (σ : store) this d :
  σ !! this = Some (CaptureDevice_at d) →
  well_sized (device d) →
  CaptureDevice_default this σ
  = Ok (tt, <[this := CaptureDevice_at {| device := blank |}]> σ).
Proof.
  intros Hl (Hi & Hn & Hs). unfold CaptureDevice_default.
  rewrite (bind_Ok _ _ _ _ _ (update_device_Ok _ _ _ _ Hl)).
  rewrite (bind_Ok _ _ _ _ _ (update_device_Ok _ _ _ _ (lookup_insert_eq _ _ _))).
  rewrite insert_insert_eq.
  rewrite (bind_Ok _ _ _ _ _ (update_device_Ok _ _ _ _ (lookup_insert_eq _ _ _))).
  rewrite insert_insert_eq.
  rewrite (update_device_Ok _ _ _ _ (lookup_insert_eq _ _ _)).
  rewrite insert_insert_eq. simpl.
  unfold set_serial_number, set_name, set_identifier, set_type, blank. simpl.
  by rewrite (memset_whole _ _ _ Hi), (memset_whole _ _ _ Hn), (memset_whole _ _ _ Hs).
Qed.

(** ** C strings in character arrays *)

Lemma c_str_zeros (n : nat) : (0 < n)%nat → c_str (repeat zero n) = Some ""%string.
Proof. destruct n as [|n]; [lia | reflexivity]. Qed.

(** The characters before the first NUL are the string; what follows
    the NUL is not read. *)
Lemma c_str_app (text rest : list ascii) :
  zero ∉ text →
  c_str (text ++ zero :: rest) = Some (string_of_list_ascii text).
Proof.
  induction text as [|c text IH]; intros Hz; [reflexivity|].
  apply not_elem_of_cons in Hz as [Hc Hz]. simpl.
  destruct (Ascii.eqb_spec c zero) as [->|_]; [done|].
  by rewrite IH.
Qed.

(** What [c_str] returns is in the array as it stands, followed by a
    NUL. *)
Lemma c_str_Some (s : list ascii) (str : string) :
  c_str s = Some str →
  (zero ∉ list_ascii_of_string str) ∧
  s = list_ascii_of_string str ++ zero :: drop (S (String.length str)) s.
Proof.
  revert str. induction s as [|c s IH]; intros str; [done|]. simpl.
  destruct (Ascii.eqb_spec c zero) as [->|Hc].
  - intros [= <-]. simpl. split; [apply not_elem_of_nil | by rewrite drop_0].
  - destruct (c_str s) as [str'|]; [|done]. intros [= <-].
    destruct (IH str' eq_refl) as [Hz Hs]. simpl. split.
    + apply not_elem_of_cons. split; [congruence | done].
    + f_equal. exact Hs.
Qed.

(** An array has a C string inside it exactly when it has a NUL. *)
Lemma c_str_is_Some (s : list ascii) : is_Some (c_str s) ↔ zero ∈ s.
Proof.
  induction s as [|c s IH]; simpl.
  - split; [by intros [? ?] | by intros ?%elem_of_nil].
  - destruct (Ascii.eqb_spec c zero) as [->|Hc].
    + split; [intros _; apply list_elem_of_here | eauto].
    + rewrite elem_of_cons, <- IH, fmap_is_Some.
      split; [tauto | intros [Heq|Hs]; [by destruct Hc | exact Hs]].
Qed.

Lemma c_str_None (s : list ascii) : c_str s = None ↔ zero ∉ s.
Proof. rewrite <- c_str_is_Some, eq_None_not_Some. done. Qed.

Lemma std_string_Ok (s : list ascii) (str : string) (σ : store) :
  c_str s = Some str → std_string s σ = Ok (str, σ).
Proof. intros Hs. unfold std_string. by rewrite Hs. Qed.

Lemma std_string_Err (s : list ascii) (σ : store) :
  c_str s = None → std_string s σ = Err UnterminatedString.
Proof. intros Hs. unfold std_string. by rewrite Hs. Qed.

Lemma std_string_text (field : list ascii) (σ : store) :
  zero ∈ field → ∃ s, std_string field σ = Ok (s, σ) ∧ text_of field s.
Proof.
  intros [s Hs]%c_str_is_Some. exists s.
  split; [by apply std_string_Ok | by apply c_str_Some].
Qed.

(** ** Construction from a record *)

(** C1: constructing a descriptor from a record [r] and then calling
    [getInfo] returns [r] itself, every field what it was in [r]: the
    constructor copies the record and changes nothing in it. *)
Theorem getInfo_CaptureDevice_from (σ : store) (this device_desc : loc)
    (d : CaptureDevice) (r : tis_device_info) :
  σ !! device_desc = Some (tis_device_info_at r) →
  σ !! this = Some (CaptureDevice_at d) →
  (CaptureDevice_from this device_desc;; getInfo this) σ
  = Ok (r, <[this := CaptureDevice_at {| device := r |}]> σ).
Proof.
  intros Hr Hd.
  rewrite (bind_Ok _ _ _ _ _ (CaptureDevice_from_Ok _ _ _ _ _ Hr Hd)).
  apply (getInfo_Ok _ this {| device := r |}), lookup_insert_eq.
Qed.

Lemma getInfo_CaptureDevice_from_witness :
  fresh_store !! 2%positive = Some (tis_device_info_at usb_camera) ∧
  fresh_store !! 1%positive = Some (CaptureDevice_at {| device := leftover |}) ∧
  (CaptureDevice_from 1 2;; getInfo 1) fresh_store
  = Ok (usb_camera, <[1%positive := CaptureDevice_at {| device := usb_camera |}]> fresh_store).
Proof.
  split; [reflexivity|]. split; [reflexivity|].
  apply (getInfo_CaptureDevice_from fresh_store 1 2 {| device := leftover |} usb_camera);
    reflexivity.
Defined.

(** C7: the constructor validates nothing.  Whatever the record holds,
    any integer as its type and any characters in its arrays, the
    construction succeeds, the object holds the record as it is, and
    [getDeviceType] then returns the type value of the record. *)
Theorem getDeviceType_CaptureDevice_from (σ : store) (this device_desc : loc)
    (d : CaptureDevice) (r : tis_device_info) :
  σ !! device_desc = Some (tis_device_info_at r) →
  σ !! this = Some (CaptureDevice_at d) →
  CaptureDevice_from this device_desc σ
  = Ok (tt, <[this := CaptureDevice_at {| device := r |}]> σ) ∧
  (CaptureDevice_from this device_desc;; getDeviceType this) σ
  = Ok (type r, <[this := CaptureDevice_at {| device := r |}]> σ).
Proof.
  intros Hr Hd.
  pose proof (CaptureDevice_from_Ok _ _ _ _ _ Hr Hd) as Hc.
  split; [done|].
  rewrite (bind_Ok _ _ _ _ _ Hc).
  apply (getDeviceType_Ok _ this {| device := r |}), lookup_insert_eq.
Qed.

Lemma getDeviceType_CaptureDevice_from_witness :
  fresh_store !! 3%positive = Some (tis_device_info_at odd_record) ∧
  fresh_store !! 1%positive = Some (CaptureDevice_at {| device := leftover |}) ∧
  (CaptureDevice_from 1 3;; getDeviceType 1) fresh_store
  = Ok (77, <[1%positive := CaptureDevice_at {| device := odd_record |}]> fresh_store).
Proof.
  split; [reflexivity|]. split; [reflexivity|].
  apply (getDeviceType_CaptureDevice_from fresh_store 1 3 {| device := leftover |} odd_record);
    reflexivity.
Defined.

(** ** Default construction *)

(** C3: after default construction the type is
    [TIS_DEVICE_TYPE_UNKNOWN], every element of every array is NUL, and
    [getName], [getSerial] and [getIdentifier] return the empty string.
    Nothing of what the storage held before is left in the object. *)
Theorem CaptureDevice_default_blank `{hdr : device_discovery_h}
    (σ : store) (this : loc) (d : CaptureDevice) :
  arrays_nonempty →
  σ !! this = Some (CaptureDevice_at d) →
  well_sized (device d) →
  ∃ σ' : store,
    CaptureDevice_default this σ = Ok (tt, σ') ∧
    σ' = <[this := CaptureDevice_at {| device := blank |}]> σ ∧
    getInfo this σ' = Ok (blank, σ') ∧
    getDeviceType this σ' = Ok (TIS_DEVICE_TYPE_UNKNOWN, σ') ∧
    getName this σ' = Ok (""%string, σ') ∧
    getSerial this σ' = Ok (""%string, σ') ∧
    getIdentifier this σ' = Ok (""%string, σ').
Proof.
  intros (Hi & Hn & Hs) Hl Hw.
  eexists. split; [by apply CaptureDevice_default_Ok with d|].
  split; [reflexivity|].
  pose proof (lookup_insert_eq σ this (CaptureDevice_at {| device := blank |})) as Hb.
  split; [apply (getInfo_Ok _ _ _ Hb)|].
  split; [apply (getDeviceType_Ok _ _ _ Hb)|].
  rewrite (getName_run _ _ _ Hb), (getSerial_run _ _ _ Hb), (getIdentifier_run _ _ _ Hb).
  repeat split; apply std_string_Ok, c_str_zeros; assumption.
Qed.

Lemma CaptureDevice_default_blank_witness :
  arrays_nonempty (hdr := example_header) ∧
  fresh_store !! 1%positive = Some (CaptureDevice_at {| device := leftover |}) ∧
  well_sized (hdr := example_header) leftover ∧
  ∃ σ' : store,
    CaptureDevice_default (hdr := example_header) 1 fresh_store = Ok (tt, σ') ∧
    σ' = <[1%positive := CaptureDevice_at {| device := blank (hdr := example_header) |}]>
           fresh_store ∧
    getInfo 1 σ' = Ok (blank (hdr := example_header), σ') ∧
    getDeviceType 1 σ' = Ok (0, σ') ∧
    getName 1 σ' = Ok (""%string, σ') ∧
    getSerial 1 σ' = Ok (""%string, σ') ∧
    getIdentifier 1 σ' = Ok (""%string, σ').
Proof.
  assert (Ha : arrays_nonempty (hdr := example_header)) by (repeat split; simpl; lia).
  assert (Hw : well_sized (hdr := example_header) leftover) by (repeat split).
  split; [exact Ha|]. split; [reflexivity|]. split; [exact Hw|].
  exact (CaptureDevice_default_blank (hdr := example_header) fresh_store 1
           {| device := leftover |} Ha eq_refl Hw).
Defined.

(** ** Assignment *)

(** C4: [operator=] puts the whole record of [other] into [this] and
    returns [this].  Afterwards [getInfo] returns the same record for
    both objects, and nothing of the record [this] held is left; the
    returned reference can be the right-hand side of a further
    assignment; and when [other] is another object, writing to it
    afterwards does not reach [this]. *)
Theorem operator_assign_copies (σ : store) (this other : loc) (d o : CaptureDevice) :
  σ !! this = Some (CaptureDevice_at d) →
  σ !! other = Some (CaptureDevice_at o) →
  ∃ σ' : store,
    operator_assign this other σ = Ok (this, σ') ∧
    σ' = <[this := CaptureDevice_at {| device := device o |}]> σ ∧
    getInfo this σ' = Ok (device o, σ') ∧
    getInfo other σ' = Ok (device o, σ') ∧
    (∀ third t, σ !! third = Some (CaptureDevice_at t) →
       ∃ σ'' : store,
         (l ← operator_assign this other; operator_assign third l) σ = Ok (third, σ'') ∧
         getInfo third σ'' = Ok (device o, σ'')) ∧
    (∀ r', this ≠ other →
       (put_device other r';; getInfo this) σ'
       = Ok (device o, <[other := CaptureDevice_at {| device := r' |}]> σ')).
Proof.
  intros Hd Ho.
  pose proof (operator_assign_Ok _ _ _ _ _ Hd Ho) as Ha.
  pose proof (lookup_insert_eq σ this (CaptureDevice_at {| device := device o |})) as Ht.
  eexists. split; [exact Ha|]. split; [reflexivity|].
  split; [apply (getInfo_Ok _ _ _ Ht)|].
  assert (Ho' : <[this := CaptureDevice_at {| device := device o |}]> σ !! other
                = Some (CaptureDevice_at o)).
  { destruct (decide (this = other)) as [->|Hne].
    - rewrite lookup_insert_eq, CaptureDevice_eta. congruence.
    - by rewrite lookup_insert_ne. }
  split; [apply (getInfo_Ok _ _ _ Ho')|].
  split.
  - intros third t Hthird. rewrite (bind_Ok _ _ _ _ _ Ha).
    assert (∃ t', <[this := CaptureDevice_at {| device := device o |}]> σ !! third
                  = Some (CaptureDevice_at t')) as [t' Ht'].
    { destruct (decide (this = third)) as [->|Hne].
      - rewrite lookup_insert_eq. eauto.
      - rewrite lookup_insert_ne by done. eauto. }
    eexists. split; [apply (operator_assign_Ok _ _ _ _ _ Ht' Ht)|].
    apply (getInfo_Ok _ third {| device := device o |}), lookup_insert_eq.
  - intros r' Hne. rewrite (bind_Ok _ _ _ _ _ (put_device_Ok _ _ _ r' Ho')).
    apply (getInfo_Ok _ this {| device := device o |}).
    by rewrite lookup_insert_ne, lookup_insert_eq.
Qed.

Lemma operator_assign_copies_witness :
  cameras !! 1%positive = Some (CaptureDevice_at {| device := usb_camera |}) ∧
  cameras !! 2%positive = Some (CaptureDevice_at {| device := other_camera |}) ∧
  ∃ σ' : store,
    operator_assign 1 2 cameras = Ok (1%positive, σ') ∧
    σ' = <[1%positive := CaptureDevice_at {| device := other_camera |}]> cameras ∧
    getInfo 1 σ' = Ok (other_camera, σ') ∧
    getInfo 2 σ' = Ok (other_camera, σ') ∧
    (∀ third t, cameras !! third = Some (CaptureDevice_at t) →
       ∃ σ'' : store,
         (l ← operator_assign 1 2; operator_assign third l) cameras = Ok (third, σ'') ∧
         getInfo third σ'' = Ok (other_camera, σ'')) ∧
    (∀ r', 1%positive ≠ 2%positive →
       (put_device 2 r';; getInfo 1) σ'
       = Ok (other_camera, <[2%positive := CaptureDevice_at {| device := r' |}]> σ')).
Proof.
  split; [reflexivity|]. split; [reflexivity|].
  exact (operator_assign_copies cameras 1 2 {| device := usb_camera |}
           {| device := other_camera |} eq_refl eq_refl).
Defined.

(** C10: assigning a descriptor to itself changes nothing.  The store
    after [operator=] is the store before it, and [getInfo] returns the
    record it returned before. *)
Theorem operator_assign_self (σ : store) (this : loc) (d : CaptureDevice) :
  σ !! this = Some (CaptureDevice_at d) →
  operator_assign this this σ = Ok (this, σ) ∧
  (operator_assign this this;; getInfo this) σ = getInfo this σ ∧
  getInfo this σ = Ok (device d, σ).
Proof.
  intros Hd.
  assert (Ha : operator_assign this this σ = Ok (this, σ)).
  { rewrite (operator_assign_Ok _ _ _ _ _ Hd Hd), CaptureDevice_eta.
    by rewrite (insert_id _ _ _ Hd). }
  split; [exact Ha|]. split; [by rewrite (bind_Ok _ _ _ _ _ Ha)|].
  by apply getInfo_Ok.
Qed.

Lemma operator_assign_self_witness :
  cameras !! 3%positive = Some (CaptureDevice_at {| device := spliced_camera |}) ∧
  operator_assign 3 3 cameras = Ok (3%positive, cameras) ∧
  (operator_assign 3 3;; getInfo 3) cameras = getInfo 3 cameras ∧
  getInfo 3 cameras = Ok (spliced_camera, cameras).
Proof.
  split; [reflexivity|].
  exact (operator_assign_self cameras 3 {| device := spliced_camera |} eq_refl).
Defined.

(** ** The copy [getInfo] returns *)

(** C5: [getInfo] leaves the store as it is, and the record it returns
    is the caller's own.  Once the caller holds it in a variable,
    writing to that variable does not change what the descriptor
    holds, and writing to the descriptor, through [operator=] or in any
    other way, does not change the variable. *)
Theorem getInfo_independent_copy (σ : store) (this copy : loc) (d : CaptureDevice) :
  σ !! this = Some (CaptureDevice_at d) →
  copy ≠ this →
  getInfo this σ = Ok (device d, σ) ∧
  ∃ σ1 : store,
    (r ← getInfo this; store_info copy r) σ = Ok (tt, σ1) ∧
    σ1 !! this = Some (CaptureDevice_at d) ∧
    get_info copy σ1 = Ok (device d, σ1) ∧
    (∀ r',
       (store_info copy r';; getInfo this) σ1
       = Ok (device d, <[copy := tis_device_info_at r']> σ1)) ∧
    (∀ r',
       (put_device this r';; get_info copy) σ1
       = Ok (device d, <[this := CaptureDevice_at {| device := r' |}]> σ1)) ∧
    (∀ other o, σ1 !! other = Some (CaptureDevice_at o) →
       (operator_assign this other;; get_info copy) σ1
       = Ok (device d, <[this := CaptureDevice_at {| device := device o |}]> σ1)).
Proof.
  intros Hd Hne.
  pose proof (getInfo_Ok _ _ _ Hd) as Hg.
  split; [exact Hg|].
  exists (<[copy := tis_device_info_at (device d)]> σ).
  assert (Hd1 : <[copy := tis_device_info_at (device d)]> σ !! this
                = Some (CaptureDevice_at d)) by by rewrite lookup_insert_ne.
  split; [by rewrite (bind_Ok _ _ _ _ _ Hg)|].
  split; [exact Hd1|].
  split; [apply get_info_Ok, lookup_insert_eq|].
  split; [|split].
  - intros r'. unfold store_info at 1. unfold mbind, M_bind.
    apply getInfo_Ok. by rewrite lookup_insert_ne, lookup_insert_ne.
  - intros r'. rewrite (bind_Ok _ _ _ _ _ (put_device_Ok _ _ _ r' Hd1)).
    apply get_info_Ok. by rewrite lookup_insert_ne, lookup_insert_eq.
  - intros other o Ho. rewrite (bind_Ok _ _ _ _ _ (operator_assign_Ok _ _ _ _ _ Hd1 Ho)).
    apply get_info_Ok. by rewrite lookup_insert_ne, lookup_insert_eq.
Qed.

Lemma getInfo_independent_copy_witness :
  cameras !! 1%positive = Some (CaptureDevice_at {| device := usb_camera |}) ∧
  5%positive ≠ 1%positive ∧
  getInfo 1 cameras = Ok (usb_camera, cameras) ∧
  ∃ σ1 : store,
    (r ← getInfo 1; store_info 5 r) cameras = Ok (tt, σ1) ∧
    σ1 !! 1%positive = Some (CaptureDevice_at {| device := usb_camera |}) ∧
    get_info 5 σ1 = Ok (usb_camera, σ1) ∧
    (∀ r',
       (store_info 5 r';; getInfo 1) σ1
       = Ok (usb_camera, <[5%positive := tis_device_info_at r']> σ1)) ∧
    (∀ r',
       (put_device 1 r';; get_info 5) σ1
       = Ok (usb_camera, <[1%positive := CaptureDevice_at {| device := r' |}]> σ1)) ∧
    (∀ other o, σ1 !! other = Some (CaptureDevice_at o) →
       (operator_assign 1 other;; get_info 5) σ1
       = Ok (usb_camera, <[1%positive := CaptureDevice_at {| device := device o |}]> σ1)).
Proof.
  assert (Hne : 5%positive ≠ 1%positive) by discriminate.
  split; [reflexivity|]. split; [exact Hne|].
  exact (getInfo_independent_copy cameras 1 5 {| device := usb_camera |} eq_refl Hne).
Defined.


(** ** The text getters *)

(** C6, as the code has it: when the array of a text field holds a NUL,
    [getName], [getSerial] and [getIdentifier] return the characters
    before the first NUL of their field, each character as it is in the
    array and none dropped, and leave the store as it is; on a field
    that is all NUL they return the empty string. *)
Theorem getters_return_text (σ : store) (this : loc) (d : CaptureDevice) :
  σ !! this = Some (CaptureDevice_at d) →
  (zero ∈ name (device d) →
     ∃ s, getName this σ = Ok (s, σ) ∧ text_of (name (device d)) s) ∧
  (zero ∈ serial_number (device d) →
     ∃ s, getSerial this σ = Ok (s, σ) ∧ text_of (serial_number (device d)) s) ∧
  (zero ∈ identifier (device d) →
     ∃ s, getIdentifier this σ = Ok (s, σ) ∧ text_of (identifier (device d)) s) ∧
  (∀ n, name (device d) = repeat zero (S n) →
     getName this σ = Ok (""%string, σ)) ∧
  (∀ n, serial_number (device d) = repeat zero (S n) →
     getSerial this σ = Ok (""%string, σ)) ∧
  (∀ n, identifier (device d) = repeat zero (S n) →
     getIdentifier this σ = Ok (""%string, σ)).
Proof.
  intros Hl.
  rewrite (getName_run _ _ _ Hl), (getSerial_run _ _ _ Hl), (getIdentifier_run _ _ _ Hl).
  repeat split; try apply std_string_text;
    intros n ->; apply std_string_Ok, c_str_zeros; lia.
Qed.

Lemma getters_return_text_witness :
  cameras !! 2%positive = Some (CaptureDevice_at {| device := other_camera |}) ∧
  zero ∈ name other_camera ∧
  ∃ s, getName 2 cameras = Ok (s, cameras) ∧ text_of (name other_camera) s.
Proof.
  split; [reflexivity|]. split; [compute_done|].
  apply (getters_return_text cameras 2 {| device := other_camera |} eq_refl).
  compute_done.
Defined.

(** Without a NUL in the array there is no text to return: the read
    leaves the array. *)
Lemma getName_no_terminator (σ : store) (this : loc) (d : CaptureDevice) :
  σ !! this = Some (CaptureDevice_at d) →
  zero ∉ name (device d) →
  getName this σ = Err UnterminatedString.
Proof.
  intros Hl Hz. rewrite (getName_run _ _ _ Hl).
  by apply std_string_Err, c_str_None.
Qed.

(** C6 as the claim has it fails: a descriptor constructed from a
    record whose name fills its array has no NUL in that array, and
    [getName] has no string to return for it. *)
Lemma getName_no_NUL :
  (CaptureDevice_from 1 4;; getInfo 1) fresh_store
  = Ok (full_name_camera,
        <[1%positive := CaptureDevice_at {| device := full_name_camera |}]> fresh_store) ∧
  well_sized (hdr := example_header) full_name_camera ∧
  (CaptureDevice_from 1 4;; getName 1) fresh_store = Err UnterminatedString.
Proof. repeat split. Qed.

(** C8: when the array of a text field is some characters without NUL,
    a NUL, and then anything at all, the getter of that field returns
    the characters before the NUL and no more, while [getInfo] returns
    the array whole, what follows the NUL included. *)
Theorem getters_stop_at_NUL (σ : store) (this : loc) (d : CaptureDevice)
    (text rest : list ascii) :
  σ !! this = Some (CaptureDevice_at d) →
  zero ∉ text →
  (name (device d) = text ++ zero :: rest →
     getName this σ = Ok (string_of_list_ascii text, σ) ∧
     ∃ r, getInfo this σ = Ok (r, σ) ∧ name r = text ++ zero :: rest) ∧
  (serial_number (device d) = text ++ zero :: rest →
     getSerial this σ = Ok (string_of_list_ascii text, σ) ∧
     ∃ r, getInfo this σ = Ok (r, σ) ∧ serial_number r = text ++ zero :: rest) ∧
  (identifier (device d) = text ++ zero :: rest →
     getIdentifier this σ = Ok (string_of_list_ascii text, σ) ∧
     ∃ r, getInfo this σ = Ok (r, σ) ∧ identifier r = text ++ zero :: rest).
Proof.
  intros Hl Hz.
  rewrite (getName_run _ _ _ Hl), (getSerial_run _ _ _ Hl), (getIdentifier_run _ _ _ Hl).
  rewrite (getInfo_Ok _ _ _ Hl).
  split; [|split]; intros Heq;
    (split; [rewrite Heq; by apply std_string_Ok, c_str_app | eauto]).
Qed.

Lemma getters_stop_at_NUL_witness :
  cameras !! 3%positive = Some (CaptureDevice_at {| device := spliced_camera |}) ∧
  (zero ∉ list_ascii_of_string "ab") ∧
  name spliced_camera = list_ascii_of_string "ab" ++ zero :: c_array "cd" 3 ∧
  getName 3 cameras = Ok ("ab"%string, cameras) ∧
  ∃ r, getInfo 3 cameras = Ok (r, cameras) ∧
       name r = list_ascii_of_string "ab" ++ zero :: c_array "cd" 3.
Proof.
  assert (Hz : zero ∉ list_ascii_of_string "ab") by compute_done.
  split; [reflexivity|]. split; [exact Hz|]. split; [reflexivity|].
  exact (proj1 (getters_stop_at_NUL cameras 3 {| device := spliced_camera |}
                  (list_ascii_of_string "ab") (c_array "cd" 3) eq_refl Hz) eq_refl).
Defined.

(** ** The display string of the type *)

Lemma enumerators_distinct_ne `{hdr : device_discovery_h} :
  enumerators_distinct →
  TIS_DEVICE_TYPE_UNKNOWN ≠ TIS_DEVICE_TYPE_V4L2 ∧
  TIS_DEVICE_TYPE_UNKNOWN ≠ TIS_DEVICE_TYPE_ARAVIS ∧
  TIS_DEVICE_TYPE_UNKNOWN ≠ TIS_DEVICE_TYPE_FIREWIRE ∧
  TIS_DEVICE_TYPE_V4L2 ≠ TIS_DEVICE_TYPE_ARAVIS ∧
  TIS_DEVICE_TYPE_V4L2 ≠ TIS_DEVICE_TYPE_FIREWIRE ∧
  TIS_DEVICE_TYPE_ARAVIS ≠ TIS_DEVICE_TYPE_FIREWIRE.
Proof.
  unfold enumerators_distinct.
  rewrite !NoDup_cons, !elem_of_cons, !elem_of_nil. tauto.
Qed.

(** C2: [getDeviceTypeAsString] returns a string for every value of the
    type field and leaves the store as it is: "V4L2" for
    [TIS_DEVICE_TYPE_V4L2], "Aravis" for [TIS_DEVICE_TYPE_ARAVIS],
    "Firewire" for [TIS_DEVICE_TYPE_FIREWIRE], and the empty string for
    [TIS_DEVICE_TYPE_UNKNOWN] and for every value that is none of the
    three. *)
Theorem getDeviceTypeAsString_table `{hdr : device_discovery_h}
    (σ : store) (this : loc) (d : CaptureDevice) :
  enumerators_distinct →
  σ !! this = Some (CaptureDevice_at d) →
  (∃ s, getDeviceTypeAsString this σ = Ok (s, σ)) ∧
  (type (device d) = TIS_DEVICE_TYPE_V4L2 →
     getDeviceTypeAsString this σ = Ok ("V4L2"%string, σ)) ∧
  (type (device d) = TIS_DEVICE_TYPE_ARAVIS →
     getDeviceTypeAsString this σ = Ok ("Aravis"%string, σ)) ∧
  (type (device d) = TIS_DEVICE_TYPE_FIREWIRE →
     getDeviceTypeAsString this σ = Ok ("Firewire"%string, σ)) ∧
  (type (device d) = TIS_DEVICE_TYPE_UNKNOWN →
     getDeviceTypeAsString this σ = Ok (""%string, σ)) ∧
  (type (device d) ≠ TIS_DEVICE_TYPE_V4L2 →
   type (device d) ≠ TIS_DEVICE_TYPE_ARAVIS →
   type (device d) ≠ TIS_DEVICE_TYPE_FIREWIRE →
     getDeviceTypeAsString this σ = Ok (""%string, σ)).
Proof.
  intros Hnd Hl. rewrite (getDeviceTypeAsString_Ok _ _ _ Hl).
  destruct (enumerators_distinct_ne Hnd) as (Huv & Hua & Huf & Hva & Hvf & Haf).
  split; [eauto|].
  destruct (Z.eqb_spec (type (device d)) TIS_DEVICE_TYPE_V4L2);
    destruct (Z.eqb_spec (type (device d)) TIS_DEVICE_TYPE_ARAVIS);
    destruct (Z.eqb_spec (type (device d)) TIS_DEVICE_TYPE_FIREWIRE);
    repeat split; intros; first [reflexivity | congruence].
Qed.

Lemma getDeviceTypeAsString_table_witness :
  enumerators_distinct (hdr := example_header) ∧
  <[1%positive := CaptureDevice_at {| device := usb_camera |}]> fresh_store !! 1%positive
  = Some (CaptureDevice_at {| device := usb_camera |}) ∧
  getDeviceTypeAsString (hdr := example_header) 1
    (<[1%positive := CaptureDevice_at {| device := usb_camera |}]> fresh_store)
  = Ok ("V4L2"%string,
        <[1%positive := CaptureDevice_at {| device := usb_camera |}]> fresh_store).
Proof.
  assert (Hnd : enumerators_distinct (hdr := example_header)) by compute_done.
  split; [exact Hnd|]. split; [reflexivity|].
  apply (getDeviceTypeAsString_table (hdr := example_header)
           (<[1%positive := CaptureDevice_at {| device := usb_camera |}]> fresh_store)
           1 {| device := usb_camera |} Hnd); reflexivity.
Defined.

(** C9: [getDeviceTypeAsString] reads the type field and nothing else.
    Two objects with the same type value get the same string, whatever
    their identifiers, names and serial numbers are and whatever else
    the two stores hold. *)
Theorem getDeviceTypeAsString_type_only `{hdr : device_discovery_h}
    (σ1 σ2 : store) (this1 this2 : loc) (d1 d2 : CaptureDevice) :
  σ1 !! this1 = Some (CaptureDevice_at d1) →
  σ2 !! this2 = Some (CaptureDevice_at d2) →
  type (device d1) = type (device d2) →
  ∃ s, getDeviceTypeAsString this1 σ1 = Ok (s, σ1) ∧
       getDeviceTypeAsString this2 σ2 = Ok (s, σ2).
Proof.
  intros Hl1 Hl2 Ht.
  rewrite (getDeviceTypeAsString_Ok _ _ _ Hl1), (getDeviceTypeAsString_Ok _ _ _ Hl2).
  rewrite Ht. eauto.
Qed.

Lemma getDeviceTypeAsString_type_only_witness :
  cameras !! 1%positive = Some (CaptureDevice_at {| device := usb_camera |}) ∧
  cameras !! 2%positive = Some (CaptureDevice_at {| device := other_camera |}) ∧
  type usb_camera = type other_camera ∧
  ∃ s, getDeviceTypeAsString (hdr := example_header) 1 cameras = Ok (s, cameras) ∧
       getDeviceTypeAsString (hdr := example_header) 2 cameras = Ok (s, cameras).
Proof.
  split; [reflexivity|]. split; [reflexivity|]. split; [reflexivity|].
  apply (getDeviceTypeAsString_type_only (hdr := example_header) cameras cameras 1 2
           {| device := usb_camera |} {| device := other_camera |}); reflexivity.
Defined.

(** ** Scenarios *)

(** A descriptor constructed from [usb_camera] shows "V4L2" and the
    name of the record. *)
Example scenario_v4l2 :
  (CaptureDevice_from 1 2;; getDeviceTypeAsString (hdr := example_header) 1) fresh_store
  = Ok ("V4L2"%string,
        <[1%positive := CaptureDevice_at {| device := usb_camera |}]> fresh_store) ∧
  (CaptureDevice_from 1 2;; getName 1) fresh_store
  = Ok ("USB Cam"%string,
        <[1%positive := CaptureDevice_at {| device := usb_camera |}]> fresh_store).
Proof. split; reflexivity. Qed.

(** The types [TIS_DEVICE_TYPE_ARAVIS] and [TIS_DEVICE_TYPE_FIREWIRE],
    and a type that is no enumerator. *)
Example scenario_other_types :
  (CaptureDevice_from 1 4;; getDeviceTypeAsString (hdr := example_header) 1) fresh_store
  = Ok ("Aravis"%string,
        <[1%positive := CaptureDevice_at {| device := full_name_camera |}]> fresh_store) ∧
  getDeviceTypeAsString (hdr := example_header) 3 cameras = Ok ("Firewire"%string, cameras) ∧
  (CaptureDevice_from 1 3;; getDeviceTypeAsString (hdr := example_header) 1) fresh_store
  = Ok (""%string,
        <[1%positive := CaptureDevice_at {| device := odd_record |}]> fresh_store).
Proof. repeat split; reflexivity. Qed.

(** A default-constructed descriptor shows the empty string for its
    type and for its identifier. *)
Example scenario_default :
  (CaptureDevice_default (hdr := example_header) 1;;
   getDeviceTypeAsString (hdr := example_header) 1) fresh_store
  = Ok (""%string,
        <[1%positive := CaptureDevice_at {| device := blank (hdr := example_header) |}]>
          fresh_store) ∧
  (CaptureDevice_default (hdr := example_header) 1;; getIdentifier 1) fresh_store
  = Ok (""%string,
        <[1%positive := CaptureDevice_at {| device := blank (hdr := example_header) |}]>
          fresh_store).
Proof. split; vm_compute; reflexivity. Qed.

(** A getter called through a reference to no descriptor has no
    result. *)
Example scenario_bad_reference :
  getName 2 fresh_store = Err BadReference ∧ getInfo 9 cameras = Err BadReference.
Proof. split; reflexivity. Qed.

(** ** Reading a result back *)

Lemma bind_Ok_inv {A B} (m : M A) (f : A → M B) σ b σ'' :
  (m ≫= f) σ = Ok (b, σ'') →
  ∃ a σ', m σ = Ok (a, σ') ∧ f a σ' = Ok (b, σ'').
Proof.
  unfold mbind, M_bind. destruct (m σ) as [[a σ']|e]; [eauto | done].
Qed.

Lemma get_device_inv (σ σ' : store) l d :
  get_device l σ = Ok (d, σ') → σ !! l = Some (CaptureDevice_at d) ∧ σ' = σ.
Proof.
  unfold get_device. destruct (σ !! l) as [[d0|r0]|]; [|done..].
  by intros [= -> ->].
Qed.

Lemma get_info_inv (σ σ' : store) l r :
  get_info l σ = Ok (r, σ') → σ !! l = Some (tis_device_info_at r) ∧ σ' = σ.
Proof.
  unfold get_info. destruct (σ !! l) as [[d0|r0]|]; [done| |done].
  by intros [= -> ->].
Qed.

Lemma put_device_inv (σ σ' : store) l r u :
  put_device l r σ = Ok (u, σ') →
  (∃ d, σ !! l = Some (CaptureDevice_at d)) ∧
  σ' = <[l := CaptureDevice_at {| device := r |}]> σ.
Proof.
  unfold put_device. destruct (σ !! l) as [[d0|r0]|]; [|done..].
  intros [= _ <-]. eauto.
Qed.

Lemma update_device_inv (σ σ' : store) l f u :
  update_device l f σ = Ok (u, σ') →
  ∃ d, σ !! l = Some (CaptureDevice_at d) ∧
       σ' = <[l := CaptureDevice_at {| device := f (device d) |}]> σ.
Proof.
  unfold update_device.
  intros (d & σ1 & [Hl ->]%get_device_inv & [_ ->]%put_device_inv)%bind_Ok_inv.
  eauto.
Qed.

Lemma std_string_inv (s : list ascii) (σ σ' : store) (str : string) :
  std_string s σ = Ok (str, σ') → c_str s = Some str ∧ σ' = σ.
Proof.
  unfold std_string. destruct (c_str s) as [str0|]; [|done].
  by intros [= -> ->].
Qed.



(** What the object at [other] is once [this] holds the record of
    [o]: [o] still, also when [other] is [this]. *)
Lemma lookup_after_assign (σ : store) (this other : loc) (d o : CaptureDevice) :
  σ !! this = Some (CaptureDevice_at d) →
  σ !! other = Some (CaptureDevice_at o) →
  <[this := CaptureDevice_at {| device := device o |}]> σ !! other
  = Some (CaptureDevice_at o).
Proof.
  intros Hd Ho. destruct (decide (this = other)) as [->|Hne].
  - rewrite lookup_insert_eq, CaptureDevice_eta. congruence.
  - by rewrite lookup_insert_ne.
Qed.

(** The default constructor on any storage for a [CaptureDevice],
    whatever the lengths of the lists that stand for its arrays. *)
Lemma CaptureDevice_default_run `{hdr : device_discovery_h} (σ : store) this d :
  σ !! this = Some (CaptureDevice_at d) →
  CaptureDevice_default this σ
  = Ok (tt, <[this := CaptureDevice_at {| device := {|
         type := TIS_DEVICE_TYPE_UNKNOWN;
         identifier := memset (identifier (device d)) zero sizeof_identifier;
         name := memset (name (device d)) zero sizeof_name;
         serial_number := memset (serial_number (device d)) zero sizeof_serial_number;
       |} |}]> σ).
Proof.
  intros Hl. unfold CaptureDevice_default.
  rewrite (bind_Ok _ _ _ _ _ (update_device_Ok _ _ _ _ Hl)).
  rewrite (bind_Ok _ _ _ _ _ (update_device_Ok _ _ _ _ (lookup_insert_eq _ _ _))).
  rewrite insert_insert_eq.
  rewrite (bind_Ok _ _ _ _ _ (update_device_Ok _ _ _ _ (lookup_insert_eq _ _ _))).
  rewrite insert_insert_eq.
  rewrite (update_device_Ok _ _ _ _ (lookup_insert_eq _ _ _)).
  by rewrite insert_insert_eq.
Qed.

(** ** The text getters, on every array *)





(** ** What the member functions leave alone *)

(** X3: a [const] member function returns with the store it was called
    on, whatever the location it is called through holds. *)
Theorem const_members_keep_store `{hdr : device_discovery_h}
    (σ σ' : store) (this : loc) :
  (∀ r, getInfo this σ = Ok (r, σ') → σ' = σ) ∧
  (∀ s, getName this σ = Ok (s, σ') → σ' = σ) ∧
  (∀ s, getSerial this σ = Ok (s, σ') → σ' = σ) ∧
  (∀ s, getIdentifier this σ = Ok (s, σ') → σ' = σ) ∧
  (∀ t, getDeviceType this σ = Ok (t, σ') → σ' = σ) ∧
  (∀ s, getDeviceTypeAsString this σ = Ok (s, σ') → σ' = σ).
Proof.
  repeat split; intros x (d & σ1 & [Hl ->]%get_device_inv & Hk)%bind_Ok_inv.
  - by injection Hk.
  - by apply std_string_inv in Hk as [_ ->].
  - by apply std_string_inv in Hk as [_ ->].
  - by apply std_string_inv in Hk as [_ ->].
  - by injection Hk.
  - simpl in Hk. repeat case_match; by injection Hk.
Qed.

(** X4: the constructors and [operator=] write to the object they are
    called on and to nothing else: every other location of the store
    holds afterwards what it held before, and no location is added or
    removed. *)
Theorem mutators_change_only_this `{hdr : device_discovery_h}
    (σ σ' : store) (this l : loc) :
  l ≠ this →
  (∀ device_desc, CaptureDevice_from this device_desc σ = Ok (tt, σ') →
     σ' !! l = σ !! l ∧ dom σ' = dom σ) ∧
  (CaptureDevice_default this σ = Ok (tt, σ') →
     σ' !! l = σ !! l ∧ dom σ' = dom σ) ∧
  (∀ other ret, operator_assign this other σ = Ok (ret, σ') →
     σ' !! l = σ !! l ∧ dom σ' = dom σ).
Proof.
  intros Hne.
  assert (Hput : ∀ (σ0 σ1 : store) r u, put_device this r σ0 = Ok (u, σ1) →
            σ1 !! l = σ0 !! l ∧ dom σ1 = dom σ0).
  { intros σ0 σ1 r u [[d Hd] ->]%put_device_inv. split.
    - by rewrite lookup_insert_ne.
    - rewrite dom_insert_L. apply subseteq_union_1_L, singleton_subseteq_l.
      by apply elem_of_dom_2 with (CaptureDevice_at d). }
  assert (Hupd : ∀ (σ0 σ1 : store) f u, update_device this f σ0 = Ok (u, σ1) →
            σ1 !! l = σ0 !! l ∧ dom σ1 = dom σ0).
  { intros σ0 σ1 f u (d & σ2 & [_ ->]%get_device_inv & Hp)%bind_Ok_inv.
    by apply Hput in Hp. }
  split; [|split].
  - intros p (r & σ1 & [_ ->]%get_info_inv & Hp)%bind_Ok_inv. by apply Hput in Hp.
  - unfold CaptureDevice_default.
    intros ([] & σ1 & [H1 D1]%Hupd & Hk)%bind_Ok_inv.
    apply bind_Ok_inv in Hk as ([] & σ2 & [H2 D2]%Hupd & Hk).
    apply bind_Ok_inv in Hk as ([] & σ3 & [H3 D3]%Hupd & [H4 D4]%Hupd).
    split; congruence.
  - intros other ret (o & σ1 & [_ ->]%get_device_inv & Hk)%bind_Ok_inv.
    apply bind_Ok_inv in Hk as ([] & σ2 & Hp%Hput & Hk).
    injection Hk as _ <-. exact Hp.
Qed.

Lemma mutators_change_only_this_witness :
  2%positive ≠ 1%positive ∧
  (operator_assign 1 3 cameras
   = Ok (1%positive, <[1%positive := CaptureDevice_at {| device := spliced_camera |}]> cameras)) ∧
  <[1%positive := CaptureDevice_at {| device := spliced_camera |}]> cameras !! 2%positive
  = cameras !! 2%positive ∧
  dom (<[1%positive := CaptureDevice_at {| device := spliced_camera |}]> cameras) = dom cameras.
Proof.
  assert (Hne : 2%positive ≠ 1%positive) by discriminate.
  split; [exact Hne|]. split; [reflexivity|].
  exact (proj2 (proj2 (mutators_change_only_this (hdr := example_header) cameras
           (<[1%positive := CaptureDevice_at {| device := spliced_camera |}]> cameras)
           1 2 Hne)) 3%positive 1%positive eq_refl).
Defined.

(** ** Construction keeps no link to its argument *)

(** X5: the constructor from a record reads the record and leaves it
    as it is; the descriptor holds a copy, so that what the caller
    writes to the record afterwards does not show in the descriptor. *)
Theorem CaptureDevice_from_keeps_no_link (σ : store) (this device_desc : loc)
    (d : CaptureDevice) (r : tis_device_info) :
  σ !! device_desc = Some (tis_device_info_at r) →
  σ !! this = Some (CaptureDevice_at d) →
  (CaptureDevice_from this device_desc;; get_info device_desc) σ
  = Ok (r, <[this := CaptureDevice_at {| device := r |}]> σ) ∧
  (∀ r', (CaptureDevice_from this device_desc;; store_info device_desc r';; getInfo this) σ
         = Ok (r, <[device_desc := tis_device_info_at r']>
                    (<[this := CaptureDevice_at {| device := r |}]> σ))).
Proof.
  intros Hr Hd.
  assert (Hne : this ≠ device_desc) by (intros ->; congruence).
  pose proof (CaptureDevice_from_Ok _ _ _ _ _ Hr Hd) as Hc.
  split.
  - rewrite (bind_Ok _ _ _ _ _ Hc). apply get_info_Ok. by rewrite lookup_insert_ne.
  - intros r'. rewrite (bind_Ok _ _ _ _ _ Hc).
    unfold store_info at 1. unfold mbind at 1, M_bind at 1.
    apply (getInfo_Ok _ this {| device := r |}).
    by rewrite lookup_insert_ne, lookup_insert_eq.
Qed.

Lemma CaptureDevice_from_keeps_no_link_witness :
  fresh_store !! 2%positive = Some (tis_device_info_at usb_camera) ∧
  fresh_store !! 1%positive = Some (CaptureDevice_at {| device := leftover |}) ∧
  (CaptureDevice_from 1 2;; store_info 2 odd_record;; getInfo 1) fresh_store
  = Ok (usb_camera, <[2%positive := tis_device_info_at odd_record]>
                      (<[1%positive := CaptureDevice_at {| device := usb_camera |}]>
                         fresh_store)).
Proof.
  split; [reflexivity|]. split; [reflexivity|].
  exact (proj2 (CaptureDevice_from_keeps_no_link fresh_store 1 2 {| device := leftover |}
                  usb_camera eq_refl eq_refl) odd_record).
Defined.

(** ** Assignments in sequence *)

(** X6: assigning the same descriptor twice is assigning it once, and
    of two assignments to one descriptor the second decides, as long as
    its right-hand side is another object.  When the right-hand side of
    the second is the descriptor itself, the first one stays: the
    descriptor then holds what the first gave it. *)
Theorem operator_assign_twice (σ : store) (this a b : loc) (d da db : CaptureDevice) :
  σ !! this = Some (CaptureDevice_at d) →
  σ !! a = Some (CaptureDevice_at da) →
  σ !! b = Some (CaptureDevice_at db) →
  (operator_assign this a;; operator_assign this a) σ = operator_assign this a σ ∧
  (b ≠ this →
     (operator_assign this a;; operator_assign this b) σ = operator_assign this b σ) ∧
  (operator_assign this a;; operator_assign this this) σ = operator_assign this a σ.
Proof.
  intros Hd Ha Hb.
  pose proof (operator_assign_Ok _ _ _ _ _ Hd Ha) as Hfirst.
  pose proof (lookup_insert_eq σ this (CaptureDevice_at {| device := device da |})) as Ht.
  split; [|split].
  - rewrite (bind_Ok _ _ _ _ _ Hfirst), Hfirst.
    rewrite (operator_assign_Ok _ _ _ _ _ Ht (lookup_after_assign _ _ _ _ _ Hd Ha)).
    by rewrite insert_insert_eq.
  - intros Hne. rewrite (bind_Ok _ _ _ _ _ Hfirst).
    assert (Hb' : <[this := CaptureDevice_at {| device := device da |}]> σ !! b
                  = Some (CaptureDevice_at db)) by by rewrite lookup_insert_ne.
    rewrite (operator_assign_Ok _ _ _ _ _ Ht Hb'), (operator_assign_Ok _ _ _ _ _ Hd Hb).
    by rewrite insert_insert_eq.
  - rewrite (bind_Ok _ _ _ _ _ Hfirst), Hfirst.
    rewrite (operator_assign_Ok _ _ _ _ _ Ht Ht). simpl.
    by rewrite insert_insert_eq.
Qed.

Lemma operator_assign_twice_witness :
  cameras !! 1%positive = Some (CaptureDevice_at {| device := usb_camera |}) ∧
  cameras !! 2%positive = Some (CaptureDevice_at {| device := other_camera |}) ∧
  cameras !! 3%positive = Some (CaptureDevice_at {| device := spliced_camera |}) ∧
  3%positive ≠ 1%positive ∧
  (operator_assign 1 2;; operator_assign 1 3) cameras = operator_assign 1 3 cameras.
Proof.
  assert (Hne : 3%positive ≠ 1%positive) by discriminate.
  split; [reflexivity|]. split; [reflexivity|]. split; [reflexivity|].
  split; [exact Hne|].
  exact (proj1 (proj2 (operator_assign_twice cameras 1 2 3 {| device := usb_camera |}
                         {| device := other_camera |} {| device := spliced_camera |}
                         eq_refl eq_refl eq_refl)) Hne).
Defined.



(** X10: constructing a descriptor from the record that [getInfo]
    returns for another one leaves in it what assigning the other one
    leaves in it; the two stores differ in the caller's variable that
    held the record in between, and in nothing else. *)
Theorem CaptureDevice_from_getInfo (σ : store) (this other tmp : loc)
    (d o : CaptureDevice) :
  σ !! this = Some (CaptureDevice_at d) →
  σ !! other = Some (CaptureDevice_at o) →
  tmp ≠ this →
  tmp ≠ other →
  ∃ σa σc : store,
    operator_assign this other σ = Ok (this, σa) ∧
    (r ← getInfo other; store_info tmp r;; CaptureDevice_from this tmp) σ = Ok (tt, σc) ∧
    σc = <[tmp := tis_device_info_at (device o)]> σa ∧
    σc !! this = σa !! this ∧
    σc !! other = σa !! other.
Proof.
  intros Hd Ho Hnt Hno. do 2 eexists.
  split; [apply (operator_assign_Ok _ _ _ _ _ Hd Ho)|].
  rewrite (bind_Ok _ _ _ _ _ (getInfo_Ok _ _ _ Ho)).
  unfold store_info at 1. unfold mbind at 1, M_bind at 1.
  rewrite (CaptureDevice_from_Ok _ this tmp d (device o));
    [|apply lookup_insert_eq | by rewrite lookup_insert_ne].
  rewrite (insert_insert_ne _ this tmp) by done.
  split; [reflexivity|]. split; [reflexivity|].
  by rewrite !(lookup_insert_ne _ tmp).
Qed.

Lemma CaptureDevice_from_getInfo_witness :
  cameras !! 1%positive = Some (CaptureDevice_at {| device := usb_camera |}) ∧
  cameras !! 3%positive = Some (CaptureDevice_at {| device := spliced_camera |}) ∧
  7%positive ≠ 1%positive ∧
  7%positive ≠ 3%positive ∧
  ∃ σa σc : store,
    operator_assign 1 3 cameras = Ok (1%positive, σa) ∧
    (r ← getInfo 3; store_info 7 r;; CaptureDevice_from 1 7) cameras = Ok (tt, σc) ∧
    σc = <[7%positive := tis_device_info_at spliced_camera]> σa ∧
    σc !! 1%positive = σa !! 1%positive ∧
    σc !! 3%positive = σa !! 3%positive.
Proof.
  assert (H71 : 7%positive ≠ 1%positive) by discriminate.
  assert (H73 : 7%positive ≠ 3%positive) by discriminate.
  split; [reflexivity|]. split; [reflexivity|].
  split; [exact H71|]. split; [exact H73|].
  exact (CaptureDevice_from_getInfo cameras 1 3 7 {| device := usb_camera |}
           {| device := spliced_camera |} eq_refl eq_refl H71 H73).
Defined.

(** ** Reading the display string *)

(** X8: the display string is one of "V4L2", "Aravis", "Firewire" and
    the empty string.  It is empty exactly when the type is none of the
    three labels of the [switch], and a string that is not empty tells
    the type: "V4L2" is shown for [TIS_DEVICE_TYPE_V4L2] only, and so
    on, whatever values the enumerators have. *)
Theorem getDeviceTypeAsString_tells_type `{hdr : device_discovery_h}
    (σ σ' : store) (this : loc) (d : CaptureDevice) (s : string) :
  σ !! this = Some (CaptureDevice_at d) →
  getDeviceTypeAsString this σ = Ok (s, σ') →
  s ∈ ["V4L2"; "Aravis"; "Firewire"; ""]%string ∧
  (s = ""%string ↔
     type (device d) ≠ TIS_DEVICE_TYPE_V4L2 ∧
     type (device d) ≠ TIS_DEVICE_TYPE_ARAVIS ∧
     type (device d) ≠ TIS_DEVICE_TYPE_FIREWIRE) ∧
  (s = "V4L2"%string → type (device d) = TIS_DEVICE_TYPE_V4L2) ∧
  (s = "Aravis"%string → type (device d) = TIS_DEVICE_TYPE_ARAVIS) ∧
  (s = "Firewire"%string → type (device d) = TIS_DEVICE_TYPE_FIREWIRE).
Proof.
  intros Hl. rewrite (getDeviceTypeAsString_Ok _ _ _ Hl).
  destruct (Z.eqb_spec (type (device d)) TIS_DEVICE_TYPE_V4L2) as [Hv|Hv];
    [|destruct (Z.eqb_spec (type (device d)) TIS_DEVICE_TYPE_ARAVIS) as [Ha|Ha];
      [|destruct (Z.eqb_spec (type (device d)) TIS_DEVICE_TYPE_FIREWIRE) as [Hf|Hf]]];
    intros [= <- _]; (split; [set_solver|]);
    (split; [split; [discriminate || done | tauto || done]|]);
    repeat split; first [discriminate | done].
Qed.

Lemma getDeviceTypeAsString_tells_type_witness :
  cameras !! 3%positive = Some (CaptureDevice_at {| device := spliced_camera |}) ∧
  getDeviceTypeAsString (hdr := example_header) 3 cameras = Ok ("Firewire"%string, cameras) ∧
  type spliced_camera = 3.
Proof.
  split; [reflexivity|]. split; [reflexivity|].
  exact (proj2 (proj2 (proj2 (proj2
           (getDeviceTypeAsString_tells_type (hdr := example_header) cameras cameras 3
              {| device := spliced_camera |} "Firewire" eq_refl eq_refl)))) eq_refl).
Defined.

(** X9: the default constructor succeeds on any storage for a
    descriptor; afterwards [getDeviceType] returns
    [TIS_DEVICE_TYPE_UNKNOWN] and, when that enumerator is none of the
    labels of the [switch], the display string is empty. *)
Theorem CaptureDevice_default_display `{hdr : device_discovery_h}
    (σ : store) (this : loc) (d : CaptureDevice) :
  σ !! this = Some (CaptureDevice_at d) →
  TIS_DEVICE_TYPE_UNKNOWN ≠ TIS_DEVICE_TYPE_V4L2 →
  TIS_DEVICE_TYPE_UNKNOWN ≠ TIS_DEVICE_TYPE_ARAVIS →
  TIS_DEVICE_TYPE_UNKNOWN ≠ TIS_DEVICE_TYPE_FIREWIRE →
  ∃ σ' : store,
    CaptureDevice_default this σ = Ok (tt, σ') ∧
    (CaptureDevice_default this;; getDeviceType this) σ
    = Ok (TIS_DEVICE_TYPE_UNKNOWN, σ') ∧
    (CaptureDevice_default this;; getDeviceTypeAsString this) σ = Ok (""%string, σ').
Proof.
  intros Hl Hv Ha Hf.
  pose proof (CaptureDevice_default_run _ _ _ Hl) as Hrun.
  eexists. split; [exact Hrun|].
  rewrite !(bind_Ok _ _ _ _ _ Hrun).
  split.
  - by rewrite (getDeviceType_Ok _ _ _ (lookup_insert_eq _ _ _)).
  - rewrite (getDeviceTypeAsString_Ok _ _ _ (lookup_insert_eq _ _ _)). simpl.
    by rewrite (proj2 (Z.eqb_neq _ _) Hv), (proj2 (Z.eqb_neq _ _) Ha),
      (proj2 (Z.eqb_neq _ _) Hf).
Qed.

Lemma CaptureDevice_default_display_witness :
  fresh_store !! 1%positive = Some (CaptureDevice_at {| device := leftover |}) ∧
  ∃ σ' : store,
    CaptureDevice_default (hdr := example_header) 1 fresh_store = Ok (tt, σ') ∧
    (CaptureDevice_default (hdr := example_header) 1;; getDeviceType 1) fresh_store
    = Ok (0, σ') ∧
    (CaptureDevice_default (hdr := example_header) 1;;
     getDeviceTypeAsString (hdr := example_header) 1) fresh_store = Ok (""%string, σ').
Proof.
  split; [reflexivity|].
  apply (CaptureDevice_default_display (hdr := example_header) fresh_store 1
           {| device := leftover |} eq_refl); discriminate.
Defined.

(** ** From a text to the record and back *)

(** X11: a record whose arrays hold the characters of three strings,
    none of them NUL, each followed by at least one NUL, gives these
    three strings back: constructed from it, the descriptor returns
    the first for [getIdentifier], the second for [getName] and the
    third for [getSerial]. *)
Theorem text_round_trip (σ : store) (this device_desc : loc) (d : CaptureDevice)
    (t : Z) (i n s : string) (pi pn ps : nat) :
  σ !! device_desc
  = Some (tis_device_info_at {| type := t; identifier := c_array i (S pi);
                                name := c_array n (S pn);
                                serial_number := c_array s (S ps) |}) →
  σ !! this = Some (CaptureDevice_at d) →
  zero ∉ list_ascii_of_string i →
  zero ∉ list_ascii_of_string n →
  zero ∉ list_ascii_of_string s →
  ∃ σ' : store,
    CaptureDevice_from this device_desc σ = Ok (tt, σ') ∧
    getIdentifier this σ' = Ok (i, σ') ∧
    getName this σ' = Ok (n, σ') ∧
    getSerial this σ' = Ok (s, σ').
Proof.
  intros Hr Hd Hi Hn Hs.
  eexists. split; [apply (CaptureDevice_from_Ok _ _ _ _ _ Hr Hd)|].
  pose proof (lookup_insert_eq σ this (CaptureDevice_at {| device :=
    {| type := t; identifier := c_array i (S pi); name := c_array n (S pn);
       serial_number := c_array s (S ps) |} |})) as Ht.
  rewrite (getIdentifier_run _ _ _ Ht), (getName_run _ _ _ Ht), (getSerial_run _ _ _ Ht).
  unfold c_array. simpl.
  repeat split; apply std_string_Ok;
    (rewrite c_str_app by done); by rewrite string_of_list_ascii_of_string.
Qed.

Lemma text_round_trip_witness :
  fresh_store !! 2%positive
  = Some (tis_device_info_at {| type := 1; identifier := c_array "/dev/v0" 1;
                                name := c_array "USB Cam" 1;
                                serial_number := c_array "SN1" 1 |}) ∧
  fresh_store !! 1%positive = Some (CaptureDevice_at {| device := leftover |}) ∧
  ∃ σ' : store,
    CaptureDevice_from 1 2 fresh_store = Ok (tt, σ') ∧
    getIdentifier 1 σ' = Ok ("/dev/v0"%string, σ') ∧
    getName 1 σ' = Ok ("USB Cam"%string, σ') ∧
    getSerial 1 σ' = Ok ("SN1"%string, σ').
Proof.
  split; [reflexivity|]. split; [reflexivity|].
  apply (text_round_trip fresh_store 1 2 {| device := leftover |} 1
           "/dev/v0" "USB Cam" "SN1" 0 0 0 eq_refl eq_refl); compute_done.
Defined.
